(** * Cash-velocity growth simulation: [simulate] and [round2]

    A shallow embedding of the simulation module of the widget
    (the file exporting [simulate], imported by [App.jsx] as
    ['./simulation']) and the properties of its growth model.

    Numbers.  A JavaScript number is modelled as a real number ([R]), the
    type the specification gives to every quantity of the model; the
    rounding error of binary64 arithmetic and inputs that are not finite
    are outside this model.  Where the module guards against a result that
    is not a number, the power of a negative excess return, that result is
    modelled as [None] ([Math.pow_num], [growthPerCycle_num]).  The loop
    counter [m] and the [month] field only ever hold
    the integers 0..12 and are modelled in [Z]. *)

From Stdlib Require Import Reals Lra Lia ZArith List.
Import ListNotations.

Open Scope R_scope.

(** ** The functions of the JavaScript [Math] object used by the module *)

Module Math.

(** [Math.round(x)]: the integer nearest to [x], a tie going up, that is
    [floor (x + 1/2)]. *)
Definition round (x : R) : R := IZR (Zfloor (x + / 2)).

(** [Math.max(a, b)] and [Math.min(a, b)] on two numbers. *)
Definition max (a b : R) : R := Rmax a b.
Definition min (a b : R) : R := Rmin a b.

(** [Math.pow(x, y)].  [Math.pow(x, 0)] is 1 for every [x]; for a
    positive base it is [exp (y * ln x)]; [Math.pow(0, y)] is 0 for a
    positive [y].  The module only calls it with the bases
    [Math.max(rawExcess, 0)], which is never negative, and [DECAY], and
    with the exponents [0.7] and [m - 1] for [m] in 1..12, which are never
    negative; the JavaScript results outside that domain (NaN for a
    negative base with a fractional exponent, Infinity for base 0 with a
    negative exponent) are not real numbers and the last branch is not
    meant to describe them. *)
Definition pow (x y : R) : R :=
  if Req_dec_T y 0 then 1
  else if Rlt_dec 0 x then Rpower x y
  else 0.

(** [Math.pow(x, y)] on real arguments with the results that are not real
    numbers made visible: [None] stands for NaN, the result for a negative
    base with an exponent that is not an integer, and for an infinity, the
    result for the base 0 with a negative exponent.  A negative base with
    an integer exponent gives the integer power. *)
Definition pow_num (x y : R) : option R :=
  if Req_dec_T y 0 then Some 1
  else if Rlt_dec 0 x then Some (Rpower x y)
  else if Rlt_dec x 0 then
    if Req_dec_T (IZR (Zfloor y)) y then Some (powerRZ x (Zfloor y))
    else None
  else if Rlt_dec 0 y then Some 0
  else None.

End Math.

(** ** The module *)

(** [function round2(n) { return Math.round(n * 100) / 100; }]
    Here [n * 100] is the exact product; in binary64 the product is itself
    rounded before [Math.round] sees it, so for an [n] next to the middle
    of two hundredths the code's result can be the other hundredth. *)
Definition round2 (n : R) : R := Math.round (n * 100) / 100.

(** One element of the [data] array: [{ month, portless, traditional }].
    The specification calls the [portless] field [fast] and the array
    [series]. *)
Record Point : Type := mkPoint {
  month : Z;
  portless : R;
  traditional : R
}.

(** The object returned by [simulate]: [{ data, multiplier }]. *)
Record Result : Type := mkResult {
  data : list Point;
  multiplier : R
}.

(** [const rawExcess = cm * (roas - 1);] *)
Definition rawExcess (cm roas : R) : R := cm * (roas - 1).

(** [const growthPerCycle =
       Math.min(Math.pow(Math.max(rawExcess, 0), 0.7) * 0.14, 0.35);]
    A power that is NaN would make the product and the minimum NaN:
    [NaN * 0.14] and [Math.min(NaN, 0.35)] are NaN. *)
Definition growthPerCycle_num (cm roas : R) : option R :=
  match Math.pow_num (Math.max (rawExcess cm roas) 0) 0.7 with
  | Some p => Some (Math.min (p * 0.14) 0.35)
  | None => None
  end.

(** The number [growthPerCycle] holds.  The clamp [Math.max(rawExcess, 0)]
    keeps the base of the power from being negative, so the expression
    above is a number for every input ([growthPerCycle_is_number]) and the
    second branch is never taken. *)
Definition growthPerCycle (cm roas : R) : R :=
  match growthPerCycle_num cm roas with
  | Some g => g
  | None => 0
  end.

(** [const TRADITIONAL_CYCLE = 3.5;] *)
Definition TRADITIONAL_CYCLE : R := 3.5.

(** [const portlessCycle =
       Math.max(0.75, 1.0 - (netTermsDays - 30) * 0.004);] *)
Definition portlessCycle (netTermsDays : R) : R :=
  Math.max 0.75 (1 - (netTermsDays - 30) * 0.004).

(** [const portlessMonthly = growthPerCycle / portlessCycle;] *)
Definition portlessMonthly (cm roas netTermsDays : R) : R :=
  growthPerCycle cm roas / portlessCycle netTermsDays.

(** [const traditionalMonthly = growthPerCycle / TRADITIONAL_CYCLE;] *)
Definition traditionalMonthly (cm roas : R) : R :=
  growthPerCycle cm roas / TRADITIONAL_CYCLE.

(** [const DECAY = 0.96;] *)
Definition DECAY : R := 0.96.

(** The variables the loop updates: the accumulators [pIdx] and [tIdx] and
    the array [data] that is pushed to. *)
Record LoopState : Type := mkLoopState {
  pIdx : R;
  tIdx : R;
  pushed : list Point
}.

(** The state before the loop:
    [const data = [{ month: 0, portless: 1, traditional: 1 }];
     let pIdx = 1; let tIdx = 1;] *)
Definition initial : LoopState :=
  mkLoopState 1 1 [mkPoint 0 1 1].

(** The body of the loop for one value of [m]:
    [const d = Math.pow(DECAY, m - 1);
     pIdx *= (1 + portlessMonthly * d);
     tIdx *= (1 + traditionalMonthly * d);
     data.push({ month: m, portless: round2(pIdx),
                 traditional: round2(tIdx) });] *)
Definition loop_body (pMonthly tMonthly : R) (st : LoopState) (m : Z)
  : LoopState :=
  let d := Math.pow DECAY (IZR (m - 1)) in
  let pIdx' := pIdx st * (1 + pMonthly * d) in
  let tIdx' := tIdx st * (1 + tMonthly * d) in
  mkLoopState pIdx' tIdx'
    (pushed st ++ [mkPoint m (round2 pIdx') (round2 tIdx')]).

(** The values [m] takes in [for (let m = 1; m <= last; m++)], in order. *)
Definition months_upto (last : nat) : list Z :=
  map Z.of_nat (seq 1 last).

(** The state after the iterations [m = 1 .. last] of the loop. *)
Definition loop_upto (pMonthly tMonthly : R) (last : nat) : LoopState :=
  fold_left (loop_body pMonthly tMonthly) (months_upto last) initial.

(** [for (let m = 1; m <= 12; m++) { ... }] *)
Definition loop (pMonthly tMonthly : R) : LoopState :=
  loop_upto pMonthly tMonthly 12.

(** [export function simulate(cm, roas, netTermsDays)] *)
Definition simulate (cm roas netTermsDays : R) : Result :=
  let st := loop (portlessMonthly cm roas netTermsDays)
                 (traditionalMonthly cm roas) in
  mkResult (pushed st) (pIdx st / tIdx st).

(** The point used as default by [nth]; no statement below reads it. *)
Definition no_point : Point := mkPoint (-1) 0 0.

(** [series[i]] of a result. *)
Definition point_at (r : Result) (i : nat) : Point := nth i (data r) no_point.

(** The loop state of a call of [simulate] after the iterations
    [m = 1 .. k]. *)
Definition state_after (cm roas netTermsDays : R) (k : nat) : LoopState :=
  loop_upto (portlessMonthly cm roas netTermsDays)
            (traditionalMonthly cm roas) k.

(** What the loop has pushed for month [i], in terms of the accumulators. *)
Definition recorded (pMonthly tMonthly : R) (i : nat) : Point :=
  match i with
  | O => mkPoint 0 1 1
  | S _ => mkPoint (Z.of_nat i)
             (round2 (pIdx (loop_upto pMonthly tMonthly i)))
             (round2 (tIdx (loop_upto pMonthly tMonthly i)))
  end.

(** The index of a model after [k] months at full precision: the product of
    the factors [1 + rate * 0.96^j] of the months [j + 1 = 1 .. k], with no
    rounding anywhere. *)
Fixpoint compounded (rate : R) (k : nat) : R :=
  match k with
  | O => 1
  | S j => compounded rate j * (1 + rate * 0.96 ^ j)
  end.

(** What the returned series would satisfy if, as the specification words
    it, the value pushed for a month were also the value multiplied in the
    next month: every recorded index is the rounding of the previous
    recorded index times that month's factor. *)
Definition rounded_value_carried (cm roas netTermsDays : R) : Prop :=
  forall k : nat, (k < 12)%nat ->
    let r := simulate cm roas netTermsDays in
    portless (point_at r (S k)) =
      round2 (portless (point_at r k) *
              (1 + portlessMonthly cm roas netTermsDays * DECAY ^ k))
    /\ traditional (point_at r (S k)) =
      round2 (traditional (point_at r k) *
              (1 + traditionalMonthly cm roas * DECAY ^ k)).

(** The ratio of the two indices recorded for month 12. *)
Definition ratio_of_recorded (r : Result) : R :=
  portless (point_at r 12) / traditional (point_at r 12).

(** A series is flat when both indices of every point are 1. *)
Definition flat (l : list Point) : Prop :=
  Forall (fun pt => portless pt = 1 /\ traditional pt = 1) l.

(** The inputs the [App] component can pass to [simulate]: the two range
    sliders are given [min={0.20} max={0.80}] and [min={1.5} max={6.0}], the
    supplier-terms buttons carry the values 30, 45, 60 and 90, and the
    state starts at [useState(0.50)], [useState(3.0)], [useState(45)]. *)
Definition control_values (cm roas netTerms : R) : Prop :=
  0.20 <= cm <= 0.80
  /\ 1.5 <= roas <= 6.0
  /\ In netTerms [30; 45; 60; 90].

(** ** Math.round, Math.pow *)

Lemma Math_round_eq (x : R) (z : Z) :
  IZR z - / 2 <= x < IZR z + / 2 -> Math.round x = IZR z.
Proof.
  intros Hx. unfold Math.round. f_equal.
  apply Zfloor_eq. lra.
Qed.

Lemma Math_round_le (x y : R) : x <= y -> Math.round x <= Math.round y.
Proof.
  intros Hxy. unfold Math.round.
  apply IZR_le, Zfloor_le. lra.
Qed.

Lemma round2_eq (n : R) (z : Z) :
  IZR z - / 2 <= n * 100 < IZR z + / 2 -> round2 n = IZR z / 100.
Proof.
  intros Hn. unfold round2. now rewrite (Math_round_eq _ z).
Qed.

Lemma round2_le (x y : R) : x <= y -> round2 x <= round2 y.
Proof.
  intros Hxy. unfold round2.
  assert (H := Math_round_le (x * 100) (y * 100)). lra.
Qed.

Lemma round2_1 : round2 1 = 1.
Proof. rewrite (round2_eq 1 100); lra. Qed.

Lemma Math_pow_pos (x y : R) : 0 < x -> y <> 0 -> Math.pow x y = Rpower x y.
Proof.
  intros Hx Hy. unfold Math.pow.
  destruct (Req_dec_T y 0) as [E | _]; [contradiction |].
  destruct (Rlt_dec 0 x) as [_ | N]; [reflexivity | contradiction].
Qed.

Lemma Math_pow_0_l (y : R) : y <> 0 -> Math.pow 0 y = 0.
Proof.
  intros Hy. unfold Math.pow.
  destruct (Req_dec_T y 0) as [E | _]; [contradiction |].
  destruct (Rlt_dec 0 0) as [L | _]; [lra | reflexivity].
Qed.

Lemma Math_pow_nonneg (x y : R) : 0 <= Math.pow x y.
Proof.
  unfold Math.pow.
  destruct (Req_dec_T y 0); [lra |].
  destruct (Rlt_dec 0 x); [| lra].
  unfold Rpower. left. apply exp_pos.
Qed.

(** [Math.pow] does not decrease when its base grows, for a positive
    exponent and bases that are not negative. *)
Lemma Math_pow_le_l (a b c : R) :
  0 < c -> 0 <= a <= b -> Math.pow a c <= Math.pow b c.
Proof.
  intros Hc [Ha Hab].
  destruct (Rle_lt_or_eq_dec 0 a Ha) as [Ha' | <-].
  - rewrite !Math_pow_pos by lra.
    apply Rle_Rpower_l; lra.
  - rewrite Math_pow_0_l by lra. apply Math_pow_nonneg.
Qed.

(** With a natural number as exponent [Math.pow] is the iterated product. *)
Lemma Math_pow_nat (x : R) (k : nat) :
  0 < x -> Math.pow x (IZR (Z.of_nat k)) = x ^ k.
Proof.
  intros Hx. destruct k as [| k].
  - unfold Math.pow. simpl Z.of_nat.
    destruct (Req_dec_T 0 0) as [_ | N]; [reflexivity | now elim N].
  - rewrite Math_pow_pos; trivial.
    + rewrite <- INR_IZR_INZ. now apply Rpower_pow.
    + apply not_0_IZR. lia.
Qed.

(** The fractional power of the growth formula, without [exp] and [ln]:
    [Math.pow(x, 0.7)] is the number [y >= 0] with [y^10 = x^7]. *)
Lemma Math_pow_07_char (x : R) :
  0 <= x -> 0 <= Math.pow x 0.7 /\ Math.pow x 0.7 ^ 10 = x ^ 7.
Proof.
  intros Hx. split; [apply Math_pow_nonneg |].
  destruct (Rle_lt_or_eq_dec 0 x Hx) as [Hx' | <-].
  - rewrite Math_pow_pos by lra.
    rewrite <- (Rpower_pow 10) by (unfold Rpower; apply exp_pos).
    rewrite Rpower_mult.
    replace (0.7 * INR 10) with (INR 7) by (simpl; lra).
    now apply Rpower_pow.
  - rewrite Math_pow_0_l by lra. lra.
Qed.

(** On a base and an exponent that are not negative [Math.pow] yields a
    number, the one [Math.pow] of this file gives. *)
Lemma Math_pow_num_nonneg (x y : R) :
  0 <= x -> 0 <= y -> Math.pow_num x y = Some (Math.pow x y).
Proof.
  intros Hx Hy. unfold Math.pow_num, Math.pow.
  destruct (Req_dec_T y 0) as [E | N]; [reflexivity |].
  destruct (Rlt_dec 0 x) as [L | NL]; [reflexivity |].
  destruct (Rlt_dec x 0) as [L' | _]; [lra |].
  destruct (Rlt_dec 0 y) as [_ | NL']; [reflexivity | lra].
Qed.

(** The power 0.7 of a negative number is not a number. *)
Lemma Math_pow_num_negative_07 (x : R) : x < 0 -> Math.pow_num x 0.7 = None.
Proof.
  intros Hx. unfold Math.pow_num.
  destruct (Req_dec_T 0.7 0) as [E | _]; [lra |].
  destruct (Rlt_dec 0 x) as [L | _]; [lra |].
  destruct (Rlt_dec x 0) as [_ | NL]; [| lra].
  rewrite (Zfloor_eq 0 0.7) by lra.
  destruct (Req_dec_T (IZR 0) 0.7) as [E | _]; [lra | reflexivity].
Qed.

(** The clamp makes [growthPerCycle] a number for every input. *)
Lemma growthPerCycle_num_value (cm roas : R) :
  growthPerCycle_num cm roas =
  Some (Math.min (Math.pow (Math.max (rawExcess cm roas) 0) 0.7 * 0.14) 0.35).
Proof.
  unfold growthPerCycle_num.
  rewrite Math_pow_num_nonneg; [reflexivity | | lra].
  unfold Math.max. apply Rmax_r.
Qed.

Lemma growthPerCycle_is_number (cm roas : R) :
  growthPerCycle_num cm roas = Some (growthPerCycle cm roas).
Proof.
  unfold growthPerCycle. now rewrite growthPerCycle_num_value.
Qed.

Lemma growthPerCycle_value (cm roas : R) :
  growthPerCycle cm roas =
  Math.min (Math.pow (Math.max (rawExcess cm roas) 0) 0.7 * 0.14) 0.35.
Proof.
  unfold growthPerCycle. now rewrite growthPerCycle_num_value.
Qed.

(** ** Rate derivation *)

Lemma growthPerCycle_bounds (cm roas : R) :
  0 <= growthPerCycle cm roas <= 0.35.
Proof.
  rewrite !growthPerCycle_value. unfold Math.min.
  assert (H := Math_pow_nonneg (Math.max (rawExcess cm roas) 0) 0.7).
  split.
  - apply Rmin_glb; lra.
  - apply Rmin_r.
Qed.

Lemma portlessCycle_floor (netTermsDays : R) :
  0.75 <= portlessCycle netTermsDays.
Proof. unfold portlessCycle, Math.max. apply Rmax_l. Qed.

Lemma traditionalMonthly_nonneg (cm roas : R) :
  0 <= traditionalMonthly cm roas.
Proof.
  unfold traditionalMonthly, TRADITIONAL_CYCLE.
  assert (H := growthPerCycle_bounds cm roas).
  apply Rmult_le_pos; [lra |]. left. apply Rinv_0_lt_compat. lra.
Qed.

Lemma portlessMonthly_nonneg (cm roas netTermsDays : R) :
  0 <= portlessMonthly cm roas netTermsDays.
Proof.
  unfold portlessMonthly.
  assert (H := growthPerCycle_bounds cm roas).
  assert (Hc := portlessCycle_floor netTermsDays).
  apply Rmult_le_pos; [lra |]. left. apply Rinv_0_lt_compat. lra.
Qed.

(** A shorter cycle gives the larger monthly rate. *)
Lemma monthly_rates_ordered (cm roas netTermsDays : R) :
  portlessCycle netTermsDays <= TRADITIONAL_CYCLE ->
  traditionalMonthly cm roas <= portlessMonthly cm roas netTermsDays.
Proof.
  intros Hc. unfold traditionalMonthly, portlessMonthly.
  assert (H := growthPerCycle_bounds cm roas).
  assert (Hf := portlessCycle_floor netTermsDays).
  apply Rmult_le_compat_l; [lra |].
  apply Rinv_le_contravar; lra.
Qed.

(** Dividing by a cycle length keeps the order of two growths. *)
Lemma rate_le_compat (g1 g2 c : R) : 0 < c -> g1 <= g2 -> g1 / c <= g2 / c.
Proof.
  intros Hc Hg. unfold Rdiv.
  apply Rmult_le_compat_r; [| assumption].
  left. now apply Rinv_0_lt_compat.
Qed.

(** The growth of a cycle does not decrease with the excess return. *)
Lemma growth_le_of_excess (cm1 roas1 cm2 roas2 : R) :
  Math.max (rawExcess cm1 roas1) 0 <= Math.max (rawExcess cm2 roas2) 0 ->
  growthPerCycle cm1 roas1 <= growthPerCycle cm2 roas2.
Proof.
  intros He. rewrite !growthPerCycle_value. unfold Math.min.
  apply Rle_min_compat_r.
  apply Rmult_le_compat_r; [lra |].
  apply Math_pow_le_l; [lra |].
  split; [apply Rmax_r | exact He].
Qed.

Lemma growthPerCycle_no_excess (cm roas : R) :
  rawExcess cm roas <= 0 -> growthPerCycle cm roas = 0.
Proof.
  intros He. rewrite !growthPerCycle_value. unfold Math.min, Math.max.
  rewrite Rmax_right by assumption.
  rewrite Math_pow_0_l by lra.
  rewrite Rmult_0_l. apply Rmin_left. lra.
Qed.

(** [4^0.7] lies strictly between 2.639 and 2.6391. *)
Lemma Math_pow_4_07 : 2.639 < Math.pow 4 0.7 < 2.6391.
Proof.
  destruct (Math_pow_07_char 4) as [Hnn H10]; [lra |].
  set (y := Math.pow 4 0.7) in *.
  split.
  - apply Rnot_le_lt. intros Hle.
    assert (Hp : y ^ 10 <= 2.639 ^ 10) by (apply pow_incr; lra).
    rewrite H10 in Hp. lra.
  - apply Rnot_le_lt. intros Hle.
    assert (Hp : 2.6391 ^ 10 <= y ^ 10) by (apply pow_incr; lra).
    rewrite H10 in Hp. lra.
Qed.

(** Scenario B of the specification reaches the cap. *)
Lemma growthPerCycle_scenario_B : growthPerCycle 0.80 6.0 = 0.35.
Proof.
  rewrite !growthPerCycle_value. unfold rawExcess, Math.min, Math.max.
  replace (0.80 * (6.0 - 1)) with 4 by lra.
  rewrite Rmax_left by lra.
  assert (H := Math_pow_4_07).
  apply Rmin_right. lra.
Qed.

(** An excess return of exactly 1 gives a growth of 0.14 per cycle. *)
Lemma growthPerCycle_unit_excess (cm roas : R) :
  rawExcess cm roas = 1 -> growthPerCycle cm roas = 0.14.
Proof.
  intros He. rewrite !growthPerCycle_value. unfold Math.min, Math.max. rewrite He.
  rewrite Rmax_left by lra.
  rewrite Math_pow_pos by lra.
  unfold Rpower. rewrite ln_1, Rmult_0_r, exp_0, Rmult_1_l.
  apply Rmin_left. lra.
Qed.

(** Scenario A of the specification: an excess return of exactly 1. *)
Lemma growthPerCycle_scenario_A : growthPerCycle 0.50 3.0 = 0.14.
Proof. apply growthPerCycle_unit_excess. unfold rawExcess. lra. Qed.

(** ** The compounding loop *)

Section Loop.

Variables pMonthly tMonthly : R.

Let run := loop_upto pMonthly tMonthly.

Lemma loop_upto_0 : run 0 = initial.
Proof. reflexivity. Qed.

(** One more month is one more run of the body, with [m] the new month. *)
Lemma loop_upto_S (k : nat) :
  run (S k) = loop_body pMonthly tMonthly (run k) (Z.of_nat (S k)).
Proof.
  unfold run, loop_upto, months_upto.
  now rewrite seq_S, map_app, fold_left_app.
Qed.

(** The decay factor of month [S k] is [DECAY ^ k]. *)
Lemma decay_of_month (k : nat) :
  Math.pow DECAY (IZR (Z.of_nat (S k) - 1)) = DECAY ^ k.
Proof.
  replace (Z.of_nat (S k) - 1)%Z with (Z.of_nat k) by lia.
  apply Math_pow_nat. unfold DECAY. lra.
Qed.

Lemma decay_range (k : nat) : 0 < DECAY ^ k <= 1.
Proof.
  split.
  - apply pow_lt. unfold DECAY. lra.
  - rewrite <- (pow1 k). apply pow_incr. unfold DECAY. lra.
Qed.

(** The factor of a month is at least 1 for a rate that is not negative,
    and grows with the rate. *)
Lemma factor_ge_1 (rate : R) (k : nat) :
  0 <= rate -> 1 <= 1 + rate * DECAY ^ k.
Proof.
  intros Hr. assert (Hd := decay_range k).
  assert (0 <= rate * DECAY ^ k) by (apply Rmult_le_pos; lra). lra.
Qed.

Lemma factor_le (r1 r2 : R) (k : nat) :
  r1 <= r2 -> 1 + r1 * DECAY ^ k <= 1 + r2 * DECAY ^ k.
Proof.
  intros Hr. assert (Hd := decay_range k).
  assert (r1 * DECAY ^ k <= r2 * DECAY ^ k)
    by (apply Rmult_le_compat_r; lra). lra.
Qed.

Lemma pIdx_S (k : nat) :
  pIdx (run (S k)) = pIdx (run k) * (1 + pMonthly * DECAY ^ k).
Proof. rewrite loop_upto_S. cbn [loop_body pIdx]. now rewrite decay_of_month. Qed.

Lemma tIdx_S (k : nat) :
  tIdx (run (S k)) = tIdx (run k) * (1 + tMonthly * DECAY ^ k).
Proof. rewrite loop_upto_S. cbn [loop_body tIdx]. now rewrite decay_of_month. Qed.

Lemma pushed_S (k : nat) :
  pushed (run (S k)) = pushed (run k) ++ [recorded pMonthly tMonthly (S k)].
Proof.
  unfold recorded. fold run.
  rewrite (loop_upto_S k) at 1.
  cbn [loop_body pushed]. fold run.
  rewrite !loop_upto_S. reflexivity.
Qed.

(** The array after [k] months: one point per month 0..k, each the
    rounding of the accumulators at that month. *)
Lemma pushed_recorded (k : nat) :
  pushed (run k) = map (recorded pMonthly tMonthly) (seq 0 (S k)).
Proof.
  induction k as [| k IH].
  - reflexivity.
  - rewrite pushed_S, IH.
    rewrite (seq_S (S k)), map_app. reflexivity.
Qed.

Lemma month_recorded (i : nat) :
  month (recorded pMonthly tMonthly i) = Z.of_nat i.
Proof. now destruct i. Qed.

Lemma nth_pushed (k i : nat) :
  (i <= k)%nat -> nth i (pushed (run k)) no_point = recorded pMonthly tMonthly i.
Proof.
  intros Hik. rewrite pushed_recorded.
  rewrite (nth_indep _ no_point (recorded pMonthly tMonthly 0))
    by (rewrite length_map, length_seq; lia).
  rewrite map_nth, seq_nth by lia. reflexivity.
Qed.

(** *** With rates that are not negative *)

Hypothesis p_nonneg : 0 <= pMonthly.
Hypothesis t_nonneg : 0 <= tMonthly.

Lemma pIdx_ge_1 (k : nat) : 1 <= pIdx (run k).
Proof.
  induction k as [| k IH].
  - rewrite loop_upto_0. cbn [initial pIdx]. lra.
  - rewrite pIdx_S. assert (Hf := factor_ge_1 pMonthly k p_nonneg). nra.
Qed.

Lemma tIdx_ge_1 (k : nat) : 1 <= tIdx (run k).
Proof.
  induction k as [| k IH].
  - rewrite loop_upto_0. cbn [initial tIdx]. lra.
  - rewrite tIdx_S. assert (Hf := factor_ge_1 tMonthly k t_nonneg). nra.
Qed.

Lemma pIdx_mono (k : nat) : pIdx (run k) <= pIdx (run (S k)).
Proof.
  rewrite pIdx_S.
  assert (Hf := factor_ge_1 pMonthly k p_nonneg).
  assert (H1 := pIdx_ge_1 k). nra.
Qed.

Lemma tIdx_mono (k : nat) : tIdx (run k) <= tIdx (run (S k)).
Proof.
  rewrite tIdx_S.
  assert (Hf := factor_ge_1 tMonthly k t_nonneg).
  assert (H1 := tIdx_ge_1 k). nra.
Qed.

(** The recorded indices never go down from a month to the next. *)
Lemma recorded_mono (k : nat) :
  portless (recorded pMonthly tMonthly k)
    <= portless (recorded pMonthly tMonthly (S k))
  /\ traditional (recorded pMonthly tMonthly k)
    <= traditional (recorded pMonthly tMonthly (S k)).
Proof.
  destruct k as [| k]; cbn [recorded portless traditional]; fold run.
  - split; rewrite <- round2_1 at 1; apply round2_le;
      [apply pIdx_ge_1 | apply tIdx_ge_1].
  - split; apply round2_le; [apply pIdx_mono | apply tIdx_mono].
Qed.

(** The faster model is never behind. *)
Lemma tIdx_le_pIdx (k : nat) :
  tMonthly <= pMonthly -> tIdx (run k) <= pIdx (run k).
Proof.
  intros Hle. induction k as [| k IH].
  - rewrite loop_upto_0. cbn [initial pIdx tIdx]. lra.
  - rewrite pIdx_S, tIdx_S.
    assert (Hf := factor_ge_1 tMonthly k t_nonneg).
    assert (H1 := tIdx_ge_1 k).
    apply Rmult_le_compat; [lra | lra | exact IH | now apply factor_le].
Qed.

End Loop.

(** The accumulators are the full-precision products. *)
Lemma pIdx_compounded (pMonthly tMonthly : R) (k : nat) :
  pIdx (loop_upto pMonthly tMonthly k) = compounded pMonthly k.
Proof.
  induction k as [| k IH].
  - reflexivity.
  - rewrite pIdx_S, IH. reflexivity.
Qed.

Lemma tIdx_compounded (pMonthly tMonthly : R) (k : nat) :
  tIdx (loop_upto pMonthly tMonthly k) = compounded tMonthly k.
Proof.
  induction k as [| k IH].
  - reflexivity.
  - rewrite tIdx_S, IH. reflexivity.
Qed.

(** Without growth both accumulators stay at 1. *)
Lemma loop_upto_no_growth (k : nat) :
  pIdx (loop_upto 0 0 k) = 1 /\ tIdx (loop_upto 0 0 k) = 1.
Proof.
  induction k as [| k [IHp IHt]].
  - now rewrite loop_upto_0.
  - rewrite pIdx_S, tIdx_S, IHp, IHt. lra.
Qed.

Lemma recorded_no_growth (i : nat) :
  portless (recorded 0 0 i) = 1 /\ traditional (recorded 0 0 i) = 1.
Proof.
  destruct i as [| i]; cbn [recorded portless traditional]; [now split |].
  destruct (loop_upto_no_growth (S i)) as [-> ->].
  now rewrite round2_1.
Qed.

(** The returned array and multiplier in terms of the loop states. *)
Lemma simulate_data (cm roas netTermsDays : R) :
  data (simulate cm roas netTermsDays) =
  map (recorded (portlessMonthly cm roas netTermsDays)
                (traditionalMonthly cm roas)) (seq 0 13).
Proof. unfold simulate, loop. cbn [data]. apply pushed_recorded. Qed.

Lemma simulate_point_at (cm roas netTermsDays : R) (i : nat) :
  (i <= 12)%nat ->
  point_at (simulate cm roas netTermsDays) i =
  recorded (portlessMonthly cm roas netTermsDays)
           (traditionalMonthly cm roas) i.
Proof.
  intros Hi. unfold point_at, simulate, loop. cbn [data].
  now apply nth_pushed.
Qed.

(** The traditional accumulator does not depend on the portless rate. *)
Lemma tIdx_indep (p1 p2 tMonthly : R) (k : nat) :
  tIdx (loop_upto p1 tMonthly k) = tIdx (loop_upto p2 tMonthly k).
Proof.
  induction k as [| k IH].
  - reflexivity.
  - now rewrite !tIdx_S, IH.
Qed.

Lemma traditional_recorded_indep (p1 p2 tMonthly : R) (i : nat) :
  traditional (recorded p1 tMonthly i) = traditional (recorded p2 tMonthly i).
Proof.
  destruct i as [| i]; cbn [recorded traditional]; [reflexivity |].
  now rewrite (tIdx_indep p1 p2).
Qed.

(** ** Properties of [simulate] *)

(** C3.  For every input the growth of a cycle is
    [min(0.35, 0.14 * max(0, cm * (roas - 1)) ^ 0.7)]: the excess return is
    clamped to 0 from below before the fractional power, the power is
    multiplied by 0.14 and the product is capped at 0.35.  Because of the
    clamp the power is taken of a base that is not negative and is a
    number for every input, where the power 0.7 of a negative excess
    return would be NaN; the power [x ^ 0.7] of an [x] that is not
    negative is the number [y >= 0] with [y^10 = x^7].  For [cm = 0.80],
    [roas = 6.0] the excess return is 4, the uncapped value
    [0.14 * 4^0.7] lies between 0.3694 and 0.3695, and the growth of a
    cycle is exactly 0.35. *)
Theorem C3_growthPerCycle_formula :
  (forall cm roas : R,
      exists p : R,
        Math.pow_num (Rmax 0 (cm * (roas - 1))) 0.7 = Some p
        /\ 0 <= p /\ p ^ 10 = Rmax 0 (cm * (roas - 1)) ^ 7
        /\ growthPerCycle_num cm roas = Some (Rmin 0.35 (0.14 * p))
        /\ growthPerCycle cm roas = Rmin 0.35 (0.14 * p))
  /\ (forall cm roas : R,
        growthPerCycle cm roas =
        Rmin 0.35 (0.14 * Math.pow (Rmax 0 (cm * (roas - 1))) 0.7))
  /\ (forall x : R, x < 0 -> Math.pow_num x 0.7 = None)
  /\ (forall cm roas : R,
        cm * (roas - 1) <= 0 -> growthPerCycle_num cm roas = Some 0)
  /\ (forall x : R, 0 <= x ->
        0 <= Math.pow x 0.7 /\ Math.pow x 0.7 ^ 10 = x ^ 7)
  /\ rawExcess 0.80 6.0 = 4
  /\ Math.pow_num 4 0.7 = Some (Math.pow 4 0.7)
  /\ 0.3694 < 0.14 * Math.pow 4 0.7 < 0.3695
  /\ growthPerCycle_num 0.80 6.0 = Some 0.35
  /\ growthPerCycle 0.80 6.0 = 0.35.
Proof.
  assert (Hformula : forall cm roas : R,
             growthPerCycle cm roas =
             Rmin 0.35 (0.14 * Math.pow (Rmax 0 (cm * (roas - 1))) 0.7)).
  { intros cm roas. rewrite growthPerCycle_value.
    unfold rawExcess, Math.min, Math.max.
    now rewrite Rmin_comm, Rmult_comm, Rmax_comm. }
  repeat apply conj.
  - intros cm roas.
    assert (Hbase : 0 <= Rmax 0 (cm * (roas - 1))) by apply Rmax_l.
    destruct (Math_pow_07_char _ Hbase) as [Hp H10].
    exists (Math.pow (Rmax 0 (cm * (roas - 1))) 0.7).
    repeat apply conj; trivial.
    + apply Math_pow_num_nonneg; lra.
    + now rewrite growthPerCycle_is_number, Hformula.
  - exact Hformula.
  - apply Math_pow_num_negative_07.
  - intros cm roas He.
    rewrite growthPerCycle_is_number. f_equal.
    now apply growthPerCycle_no_excess.
  - apply Math_pow_07_char.
  - unfold rawExcess. lra.
  - apply Math_pow_num_nonneg; lra.
  - assert (H := Math_pow_4_07). lra.
  - assert (H := Math_pow_4_07). lra.
  - rewrite growthPerCycle_is_number. f_equal.
    apply growthPerCycle_scenario_B.
  - apply growthPerCycle_scenario_B.
Qed.

(** C4.  For every input the traditional cycle is 3.5 months, the fast
    cycle is [max(0.75, 1.0 - (netTermsDays - 30) * 0.004)] months, each
    monthly rate is the growth of a cycle divided by the model's cycle
    length, the same growth for both models, and these two rates are the
    ones the compounding loop of [simulate] runs with. *)
Theorem C4_cycle_lengths_and_rates (cm roas netTermsDays : R) :
  let g := growthPerCycle cm roas in
  let fastCycle := Rmax 0.75 (1.0 - (netTermsDays - 30) * 0.004) in
  TRADITIONAL_CYCLE = 3.5
  /\ portlessCycle netTermsDays = fastCycle
  /\ traditionalMonthly cm roas = g / 3.5
  /\ portlessMonthly cm roas netTermsDays = g / fastCycle
  /\ simulate cm roas netTermsDays =
     (let st := loop (g / fastCycle) (g / 3.5) in
      mkResult (pushed st) (pIdx st / tIdx st)).
Proof.
  intros g fastCycle.
  assert (Hc : portlessCycle netTermsDays = fastCycle).
  { unfold portlessCycle, fastCycle, Math.max. f_equal. lra. }
  assert (Hp : portlessMonthly cm roas netTermsDays = g / fastCycle).
  { unfold portlessMonthly. now rewrite Hc. }
  repeat split; trivial.
  unfold simulate. now rewrite Hp.
Qed.

(** C5.  For every input the returned series has exactly 13 points, their
    months are 0, 1, ..., 12 in this order, hence strictly increasing, and
    the first point is month 0 with both indices equal to 1. *)
Theorem C5_series_shape (cm roas netTermsDays : R) :
  let r := simulate cm roas netTermsDays in
  length (data r) = 13%nat
  /\ map month (data r) = [0; 1; 2; 3; 4; 5; 6; 7; 8; 9; 10; 11; 12]%Z
  /\ (forall i j : nat, (i < j < 13)%nat ->
        (month (point_at r i) < month (point_at r j))%Z)
  /\ point_at r 0 = mkPoint 0 1 1.
Proof.
  intros r. unfold r.
  split; [| split; [| split]].
  - now rewrite simulate_data, length_map, length_seq.
  - rewrite simulate_data, map_map.
    erewrite map_ext by (intros i; apply month_recorded).
    reflexivity.
  - intros i j Hij.
    rewrite !simulate_point_at, !month_recorded by lia. lia.
  - now rewrite simulate_point_at by lia.
Qed.

(** C6.  For every input with [cm] and [roas] not negative, both the
    traditional and the fast index recorded in the series never decrease
    from one month to the next. *)
Theorem C6_series_non_decreasing (cm roas netTermsDays : R) (k : nat) :
  0 <= cm -> 0 <= roas -> (k < 12)%nat ->
  let r := simulate cm roas netTermsDays in
  traditional (point_at r k) <= traditional (point_at r (S k))
  /\ portless (point_at r k) <= portless (point_at r (S k)).
Proof.
  intros _ _ Hk r. unfold r.
  rewrite !simulate_point_at by lia.
  destruct (recorded_mono (portlessMonthly cm roas netTermsDays)
              (traditionalMonthly cm roas)
              (portlessMonthly_nonneg cm roas netTermsDays)
              (traditionalMonthly_nonneg cm roas) k) as [Hp Ht].
  now split.
Qed.

Lemma C6_series_non_decreasing_witness :
  let r := simulate 0.5 3 30 in
  traditional (point_at r 0) <= traditional (point_at r 1)
  /\ portless (point_at r 0) <= portless (point_at r 1).
Proof.
  apply (C6_series_non_decreasing 0.5 3 30 0); [lra | lra | lia].
Defined.

(** C7.  For every input with [cm] and [roas] not negative and a fast
    cycle strictly shorter than 3.5 months, the multiplier is at least 1. *)
Theorem C7_multiplier_at_least_1 (cm roas netTermsDays : R) :
  0 <= cm -> 0 <= roas ->
  Rmax 0.75 (1.0 - (netTermsDays - 30) * 0.004) < 3.5 ->
  1 <= multiplier (simulate cm roas netTermsDays).
Proof.
  intros _ _ Hc.
  assert (Hc' : portlessCycle netTermsDays <= TRADITIONAL_CYCLE).
  { unfold portlessCycle, Math.max, TRADITIONAL_CYCLE.
    replace 1 with 1.0 by lra. lra. }
  unfold simulate, loop. cbn [multiplier].
  set (pm := portlessMonthly cm roas netTermsDays).
  set (tm := traditionalMonthly cm roas).
  assert (Ht := tIdx_ge_1 pm tm (traditionalMonthly_nonneg cm roas) 12).
  assert (Hpt := tIdx_le_pIdx pm tm (traditionalMonthly_nonneg cm roas) 12
                   (monthly_rates_ordered cm roas netTermsDays Hc')).
  apply Rmult_le_reg_r with (tIdx (loop_upto pm tm 12)); [lra |].
  unfold Rdiv. rewrite Rmult_assoc, Rinv_l by lra. lra.
Qed.

Lemma C7_multiplier_at_least_1_witness :
  1 <= multiplier (simulate 0.5 3 45).
Proof.
  apply (C7_multiplier_at_least_1 0.5 3 45); [lra | lra |].
  apply Rmax_lub_lt; lra.
Defined.

(** C10.  Two calls that differ only in [netTermsDays] return the same
    traditional index at every month, and the same months:
    [netTermsDays] reaches only the fast indices and the multiplier. *)
Theorem C10_traditional_independent_of_terms (cm roas terms1 terms2 : R) :
  let r1 := simulate cm roas terms1 in
  let r2 := simulate cm roas terms2 in
  map traditional (data r1) = map traditional (data r2)
  /\ map month (data r1) = map month (data r2)
  /\ (forall i : nat, traditional (point_at r1 i) = traditional (point_at r2 i)).
Proof.
  intros r1 r2. unfold r1, r2.
  assert (Hmap : map traditional (data (simulate cm roas terms1)) =
                 map traditional (data (simulate cm roas terms2))).
  { rewrite !simulate_data, !map_map.
    apply map_ext. intros i. apply traditional_recorded_indep. }
  split; [exact Hmap | split].
  - rewrite !simulate_data, !map_map.
    apply map_ext. intros i. now rewrite !month_recorded.
  - intros i. unfold point_at.
    rewrite <- !(map_nth traditional). now rewrite Hmap.
Qed.

(** Without growth the series is flat and the multiplier is 1. *)
Lemma simulate_no_growth (cm roas netTermsDays : R) :
  growthPerCycle cm roas = 0 ->
  flat (data (simulate cm roas netTermsDays))
  /\ multiplier (simulate cm roas netTermsDays) = 1.
Proof.
  intros Hg.
  assert (Hp : portlessMonthly cm roas netTermsDays = 0).
  { unfold portlessMonthly. rewrite Hg. unfold Rdiv. apply Rmult_0_l. }
  assert (Ht : traditionalMonthly cm roas = 0).
  { unfold traditionalMonthly. rewrite Hg. unfold Rdiv. apply Rmult_0_l. }
  split.
  - unfold flat. rewrite simulate_data, Hp, Ht.
    apply Forall_forall. intros pt Hin.
    apply in_map_iff in Hin. destruct Hin as [i [<- _]].
    apply recorded_no_growth.
  - unfold simulate, loop. cbn [multiplier]. rewrite Hp, Ht.
    destruct (loop_upto_no_growth 12) as [-> ->]. lra.
Qed.

(** C8.  For every input with [cm = 0] or [roas <= 1], the margin being
    one of the specification's margins, which are not negative, and
    [netTermsDays] being any number, the growth of a cycle is 0, both
    indices of every point of the series are 1, and the multiplier is 1. *)
Theorem C8_no_growth_is_flat (cm roas netTermsDays : R) :
  cm = 0 \/ (0 <= cm /\ roas <= 1) ->
  growthPerCycle cm roas = 0
  /\ flat (data (simulate cm roas netTermsDays))
  /\ multiplier (simulate cm roas netTermsDays) = 1.
Proof.
  intros Hin.
  assert (Hg : growthPerCycle cm roas = 0).
  { apply growthPerCycle_no_excess. unfold rawExcess.
    destruct Hin as [-> | [Hcm Hroas]]; [lra | nra]. }
  split; [exact Hg |].
  now apply simulate_no_growth.
Qed.

Lemma C8_no_growth_is_flat_witness :
  growthPerCycle 0.5 0.8 = 0
  /\ flat (data (simulate 0.5 0.8 60))
  /\ multiplier (simulate 0.5 0.8 60) = 1.
Proof.
  apply (C8_no_growth_is_flat 0.5 0.8 60). right. split; lra.
Defined.

(** C9.  With [roas] and [netTermsDays] fixed, for two margins
    [cm1 <= cm2] of the specification's margins, which are not negative,
    whose excess returns are not negative, the growth of a cycle for [cm2]
    is at least the one for [cm1], and so is each model's monthly rate. *)
Theorem C9_growth_monotone_in_margin (roas netTermsDays cm1 cm2 : R) :
  0 <= cm1 -> cm1 <= cm2 ->
  0 <= cm1 * (roas - 1) -> 0 <= cm2 * (roas - 1) ->
  growthPerCycle cm1 roas <= growthPerCycle cm2 roas
  /\ traditionalMonthly cm1 roas <= traditionalMonthly cm2 roas
  /\ portlessMonthly cm1 roas netTermsDays
     <= portlessMonthly cm2 roas netTermsDays.
Proof.
  intros H0 H12 He1 He2.
  assert (Hg : growthPerCycle cm1 roas <= growthPerCycle cm2 roas).
  { apply growth_le_of_excess. unfold Math.max, rawExcess.
    apply Rle_max_compat_r.
    destruct (Rle_lt_dec 1 roas) as [Hr | Hr]; nra. }
  split; [exact Hg | split].
  - unfold traditionalMonthly, TRADITIONAL_CYCLE.
    apply rate_le_compat; [lra | exact Hg].
  - unfold portlessMonthly.
    assert (Hc := portlessCycle_floor netTermsDays).
    apply rate_le_compat; [lra | exact Hg].
Qed.

Lemma C9_growth_monotone_in_margin_witness :
  growthPerCycle 0.2 3 <= growthPerCycle 0.5 3
  /\ traditionalMonthly 0.2 3 <= traditionalMonthly 0.5 3
  /\ portlessMonthly 0.2 3 45 <= portlessMonthly 0.5 3 45.
Proof.
  apply (C9_growth_monotone_in_margin 3 45 0.2 0.5); lra.
Defined.

(** ** Rounding is applied to the recorded copy only *)

(** The rates of scenario B with Net 90 and of scenario A with Net 30. *)
Lemma portlessMonthly_B_90 : portlessMonthly 0.80 6.0 90 = 0.35 / 0.76.
Proof.
  unfold portlessMonthly, portlessCycle, Math.max.
  rewrite growthPerCycle_scenario_B.
  rewrite Rmax_right by lra. f_equal. lra.
Qed.

Lemma portlessMonthly_A_30 : portlessMonthly 0.50 3.0 30 = 0.14.
Proof.
  unfold portlessMonthly, portlessCycle, Math.max.
  rewrite growthPerCycle_scenario_A.
  rewrite Rmax_right by lra. lra.
Qed.

Lemma traditionalMonthly_A : traditionalMonthly 0.50 3.0 = 0.04.
Proof.
  unfold traditionalMonthly, TRADITIONAL_CYCLE.
  rewrite growthPerCycle_scenario_A. lra.
Qed.

(** Unfolds the accumulators of a concrete month down to the products. *)
Ltac unroll_accumulators :=
  repeat (rewrite pIdx_S || rewrite tIdx_S);
  rewrite ?loop_upto_0; cbn [initial pIdx tIdx]; unfold DECAY.

(** C1, as the code has it.  For every month [m] from 1 to 12 the decay
    factor is [0.96^(m-1)] and each accumulator is multiplied by
    [1 + monthlyRate * 0.96^(m-1)]; the point recorded for month [m] holds
    the accumulators rounded to 2 decimal places, and the accumulators
    themselves, not their roundings, are what month [m+1] multiplies. *)
Theorem C1_accumulators_carried_unrounded
  (cm roas netTermsDays : R) (m : nat) :
  (1 <= m <= 12)%nat ->
  let pMonthly := portlessMonthly cm roas netTermsDays in
  let tMonthly := traditionalMonthly cm roas in
  let before := state_after cm roas netTermsDays (m - 1) in
  let after := state_after cm roas netTermsDays m in
  Math.pow DECAY (IZR (Z.of_nat m - 1)) = 0.96 ^ (m - 1)
  /\ pIdx after = pIdx before * (1 + pMonthly * 0.96 ^ (m - 1))
  /\ tIdx after = tIdx before * (1 + tMonthly * 0.96 ^ (m - 1))
  /\ point_at (simulate cm roas netTermsDays) m =
     mkPoint (Z.of_nat m) (round2 (pIdx after)) (round2 (tIdx after)).
Proof.
  intros Hm pMonthly tMonthly before after.
  destruct m as [| k]; [lia |].
  unfold before, after, state_after.
  replace (S k - 1)%nat with k by lia.
  fold pMonthly tMonthly. fold DECAY.
  split; [apply decay_of_month | split; [apply pIdx_S | split]].
  - apply tIdx_S.
  - rewrite simulate_point_at by lia. reflexivity.
Qed.

Lemma C1_accumulators_carried_unrounded_witness :
  let pMonthly := portlessMonthly 0.5 3 30 in
  let tMonthly := traditionalMonthly 0.5 3 in
  let before := state_after 0.5 3 30 (2 - 1) in
  let after := state_after 0.5 3 30 2 in
  Math.pow DECAY (IZR (Z.of_nat 2 - 1)) = 0.96 ^ (2 - 1)
  /\ pIdx after = pIdx before * (1 + pMonthly * 0.96 ^ (2 - 1))
  /\ tIdx after = tIdx before * (1 + tMonthly * 0.96 ^ (2 - 1))
  /\ point_at (simulate 0.5 3 30) 2 =
     mkPoint (Z.of_nat 2) (round2 (pIdx after)) (round2 (tIdx after)).
Proof.
  apply (C1_accumulators_carried_unrounded 0.5 3 30 2). lia.
Defined.

(** C1 as stated fails: in scenario B with Net 90 the fast index recorded
    for month 3 is 3.00, the rounding of the accumulator 3.0001..., while
    the rounding of the recorded month-2 value 2.11 times the factor of
    month 3 is 3.01. *)
Lemma C1_rounded_value_not_carried :
  portless (point_at (simulate 0.80 6.0 90) 2) = 2.11
  /\ portless (point_at (simulate 0.80 6.0 90) 3) = 3.00
  /\ round2 (2.11 * (1 + portlessMonthly 0.80 6.0 90 * DECAY ^ 2)) = 3.01
  /\ ~ rounded_value_carried 0.80 6.0 90.
Proof.
  assert (H2 : portless (point_at (simulate 0.80 6.0 90) 2) = 2.11).
  { rewrite simulate_point_at by lia. cbn [recorded portless].
    rewrite portlessMonthly_B_90. unroll_accumulators.
    rewrite (round2_eq _ 211); lra. }
  assert (H3 : portless (point_at (simulate 0.80 6.0 90) 3) = 3.00).
  { rewrite simulate_point_at by lia. cbn [recorded portless].
    rewrite portlessMonthly_B_90. unroll_accumulators.
    rewrite (round2_eq _ 300); lra. }
  assert (Hr : round2 (2.11 * (1 + portlessMonthly 0.80 6.0 90 * DECAY ^ 2))
               = 3.01).
  { rewrite portlessMonthly_B_90. unfold DECAY.
    rewrite (round2_eq _ 301); lra. }
  repeat split; trivial.
  intros Hcarried.
  destruct (Hcarried 2%nat ltac:(lia)) as [Hp _].
  rewrite H2, H3, Hr in Hp. lra.
Qed.

(** C2, as the code has it.  For every input the multiplier is the fast
    accumulator after month 12 divided by the traditional accumulator
    after month 12, each the full-precision product of its twelve monthly
    factors; the point recorded for month 12 holds the roundings of these
    two accumulators to 2 decimal places. *)
Theorem C2_multiplier_of_accumulators (cm roas netTermsDays : R) :
  let r := simulate cm roas netTermsDays in
  let final := state_after cm roas netTermsDays 12 in
  multiplier r = pIdx final / tIdx final
  /\ pIdx final = compounded (portlessMonthly cm roas netTermsDays) 12
  /\ tIdx final = compounded (traditionalMonthly cm roas) 12
  /\ point_at r 12 = mkPoint 12 (round2 (pIdx final)) (round2 (tIdx final)).
Proof.
  intros r final. unfold r, final, state_after.
  split; [reflexivity | split; [| split]].
  - apply pIdx_compounded.
  - apply tIdx_compounded.
  - now rewrite simulate_point_at by lia.
Qed.

(** C2 as stated fails: in scenario A with Net 30 the month-12 point
    records 3.61 and 1.46, whose ratio is above 2.47, while the multiplier,
    the ratio of the accumulators 3.6076... and 1.4638..., is below 2.47. *)
Lemma C2_multiplier_not_ratio_of_recorded :
  let r := simulate 0.50 3.0 30 in
  portless (point_at r 12) = 3.61
  /\ traditional (point_at r 12) = 1.46
  /\ multiplier r < 2.47 < ratio_of_recorded r
  /\ multiplier r <> ratio_of_recorded r.
Proof.
  intros r.
  assert (Hp : portless (point_at r 12) = 3.61).
  { unfold r. rewrite simulate_point_at by lia. cbn [recorded portless].
    rewrite portlessMonthly_A_30. unroll_accumulators.
    rewrite (round2_eq _ 361); lra. }
  assert (Ht : traditional (point_at r 12) = 1.46).
  { unfold r. rewrite simulate_point_at by lia. cbn [recorded traditional].
    rewrite traditionalMonthly_A. unroll_accumulators.
    rewrite (round2_eq _ 146); lra. }
  assert (Hm : multiplier r < 2.47).
  { unfold r, simulate, loop. cbn [multiplier].
    rewrite portlessMonthly_A_30, traditionalMonthly_A.
    set (P := pIdx _). set (T := tIdx _).
    assert (HP : P < 3.6077) by (unfold P; unroll_accumulators; lra).
    assert (HT : 1.4638 < T) by (unfold T; unroll_accumulators; lra).
    apply Rmult_lt_reg_r with T; [lra |].
    unfold Rdiv. rewrite Rmult_assoc, Rinv_l by lra. lra. }
  assert (Hq : 2.47 < ratio_of_recorded r).
  { unfold ratio_of_recorded. rewrite Hp, Ht. lra. }
  repeat split; trivial. lra.
Qed.

(** * Further properties of the module *)

(** ** [round2] *)

Lemma round2_within_half_cent_aux (n : R) :
  n - 0.005 < round2 n <= n + 0.005.
Proof.
  unfold round2, Math.round.
  assert (H := Zfloor_bound (n * 100 + / 2)).
  lra.
Qed.

Lemma round2_fixes_grid (z : Z) : round2 (IZR z / 100) = IZR z / 100.
Proof. apply round2_eq. lra. Qed.

(** X2.  The result of [round2] is a whole number of hundredths, a whole
    number of hundredths is left as it is, and so rounding twice is
    rounding once. *)
Theorem round2_on_grid :
  (forall n : R, exists z : Z, round2 n = IZR z / 100)
  /\ (forall z : Z, round2 (IZR z / 100) = IZR z / 100)
  /\ (forall n : R, round2 (round2 n) = round2 n).
Proof.
  assert (Hfix : forall z : Z, round2 (IZR z / 100) = IZR z / 100).
  { intros z. apply round2_eq. lra. }
  split; [| split; [exact Hfix |]].
  - intros n. exists (Zfloor (n * 100 + / 2)). reflexivity.
  - intros n. unfold round2 at 2. unfold Math.round. apply Hfix.
Qed.

(** X4.  [round2] keeps the order of two numbers. *)
Theorem round2_monotone (x y : R) : x <= y -> round2 x <= round2 y.
Proof. apply round2_le. Qed.

Lemma round2_monotone_witness : round2 1.234 <= round2 1.239.
Proof. apply (round2_monotone 1.234 1.239). lra. Defined.

(** ** Rate derivation *)

Lemma pow_lt_base (x y : R) (n : nat) :
  0 <= x < y -> x ^ S n < y ^ S n.
Proof.
  intros [Hx Hxy]. induction n as [| n IH].
  - simpl. lra.
  - change (x ^ S (S n)) with (x * x ^ S n).
    change (y ^ S (S n)) with (y * y ^ S n).
    assert (Hp : 0 <= x ^ S n) by (apply pow_le; exact Hx).
    apply Rle_lt_trans with (x * y ^ S n).
    + apply Rmult_le_compat_l; lra.
    + apply Rmult_lt_compat_r; lra.
Qed.

Lemma Math_pow_07_pos (x : R) : 0 < x -> 0 < Math.pow x 0.7.
Proof.
  intros Hx. rewrite Math_pow_pos by lra.
  unfold Rpower. apply exp_pos.
Qed.

(** The clamped excess return, raised to the 7th power. *)
Lemma clamped_excess_pow7 (e : R) :
  2.5 ^ 10 <= Math.max e 0 ^ 7 <-> 2.5 ^ 10 <= e ^ 7.
Proof.
  unfold Math.max.
  destruct (Rle_lt_dec 0 e) as [He | He].
  - now rewrite Rmax_left.
  - rewrite Rmax_right by lra.
    assert (Hneg : 0 < (- e) ^ 7) by (apply pow_lt; lra).
    replace ((- e) ^ 7) with (- e ^ 7) in Hneg by ring.
    split; intros H; lra.
Qed.

Lemma rates_in_range_aux (cm roas netTermsDays : R) :
  0 <= growthPerCycle cm roas <= 0.35
  /\ 0 <= traditionalMonthly cm roas <= 0.1
  /\ 0 <= portlessMonthly cm roas netTermsDays <= 0.35 / 0.75.
Proof.
  assert (Hg := growthPerCycle_bounds cm roas).
  assert (Hc := portlessCycle_floor netTermsDays).
  split; [exact Hg | split; split].
  - apply traditionalMonthly_nonneg.
  - unfold traditionalMonthly, TRADITIONAL_CYCLE. lra.
  - apply portlessMonthly_nonneg.
  - unfold portlessMonthly.
    apply Rle_trans with (0.35 / portlessCycle netTermsDays).
    + apply rate_le_compat; lra.
    + unfold Rdiv. apply Rmult_le_compat_l; [lra |].
      apply Rinv_le_contravar; lra.
Qed.

(** X5.  Whatever the inputs, the growth of a cycle lies in [0, 0.35], the
    traditional monthly rate in [0, 0.1] and the fast monthly rate in
    [0, 0.35 / 0.75]. *)
Theorem rates_in_range (cm roas netTermsDays : R) :
  0 <= growthPerCycle cm roas <= 0.35
  /\ 0 <= traditionalMonthly cm roas <= 0.1
  /\ 0 <= portlessMonthly cm roas netTermsDays <= 0.35 / 0.75.
Proof. apply rates_in_range_aux. Qed.

Lemma growthPerCycle_pos (cm roas : R) :
  0 < cm * (roas - 1) -> 0 < growthPerCycle cm roas.
Proof.
  intros He.
  rewrite !growthPerCycle_value. unfold rawExcess, Math.min, Math.max.
  rewrite Rmax_left by lra.
  assert (Hp := Math_pow_07_pos _ He).
  apply Rmin_glb_lt; lra.
Qed.

(** X6.  The growth of a cycle is 0 exactly when the excess return
    [cm * (roas - 1)] is not positive. *)
Theorem growthPerCycle_zero_iff (cm roas : R) :
  growthPerCycle cm roas = 0 <-> cm * (roas - 1) <= 0.
Proof.
  split.
  - intros Hg. apply Rnot_lt_le. intros He.
    rewrite growthPerCycle_value in Hg.
    unfold rawExcess, Math.min, Math.max in Hg.
    rewrite Rmax_left in Hg by lra.
    assert (Hp := Math_pow_07_pos _ He).
    assert (Hm : 0 < Rmin (Math.pow (cm * (roas - 1)) 0.7 * 0.14) 0.35)
      by (apply Rmin_glb_lt; lra).
    lra.
  - apply growthPerCycle_no_excess.
Qed.

Lemma growthPerCycle_capped_aux (cm roas : R) :
  growthPerCycle cm roas = 0.35 <-> 2.5 ^ 10 <= (cm * (roas - 1)) ^ 7.
Proof.
  rewrite <- clamped_excess_pow7.
  rewrite !growthPerCycle_value. unfold rawExcess.
  set (x := Math.max (cm * (roas - 1)) 0).
  assert (Hx : 0 <= x) by (unfold x, Math.max; apply Rmax_r).
  destruct (Math_pow_07_char x Hx) as [Hy H10].
  set (y := Math.pow x 0.7) in *.
  rewrite <- H10. unfold Math.min. split.
  - intros Hg.
    assert (H25 : 2.5 <= y).
    { apply Rnot_lt_le. intros Hlt.
      rewrite Rmin_left in Hg by lra. lra. }
    apply pow_incr. lra.
  - intros Hp.
    assert (H25 : 2.5 <= y).
    { apply Rnot_lt_le. intros Hlt.
      assert (Hs := pow_lt_base y 2.5 9 (conj Hy Hlt)). lra. }
    apply Rmin_right. lra.
Qed.


(** X8.  Past the cap the result no longer depends on the margin and the
    ROAS: two inputs with the same terms whose excess returns both have a
    7th power of at least [2.5^10] give the same series and multiplier. *)
Theorem simulate_saturates (cm1 roas1 cm2 roas2 netTermsDays : R) :
  2.5 ^ 10 <= (cm1 * (roas1 - 1)) ^ 7 ->
  2.5 ^ 10 <= (cm2 * (roas2 - 1)) ^ 7 ->
  simulate cm1 roas1 netTermsDays = simulate cm2 roas2 netTermsDays.
Proof.
  intros H1 H2.
  apply growthPerCycle_capped_aux in H1, H2.
  unfold simulate, portlessMonthly, traditionalMonthly.
  now rewrite H1, H2.
Qed.

Lemma simulate_saturates_witness :
  simulate 0.80 6.0 90 = simulate 1 5 90.
Proof.
  apply (simulate_saturates 0.80 6.0 1 5 90); lra.
Defined.

(** X9.  The fast cycle is [1 - (netTermsDays - 30) * 0.004] up to 92.5
    days of terms and stays at the floor 0.75 from there on; it never
    grows when the terms get longer, and from 30 days on it is at most one
    month. *)
Theorem portlessCycle_shape :
  (forall n : R, n <= 92.5 -> portlessCycle n = 1 - (n - 30) * 0.004)
  /\ (forall n : R, 92.5 <= n -> portlessCycle n = 0.75)
  /\ (forall n1 n2 : R, n1 <= n2 -> portlessCycle n2 <= portlessCycle n1)
  /\ (forall n : R, 30 <= n -> 0.75 <= portlessCycle n <= 1).
Proof.
  unfold portlessCycle, Math.max.
  split; [| split; [| split]].
  - intros n Hn. apply Rmax_right. lra.
  - intros n Hn. apply Rmax_left. lra.
  - intros n1 n2 Hn. apply Rle_max_compat_l. lra.
  - intros n Hn. split; [apply Rmax_l | apply Rmax_lub; lra].
Qed.

(** ** The full-precision products *)

Lemma decay_pow_range (j : nat) : 0 < 0.96 ^ j <= 1.
Proof. exact (decay_range j). Qed.

Lemma compounded_S (rate : R) (k : nat) :
  compounded rate (S k) = compounded rate k * (1 + rate * 0.96 ^ k).
Proof. reflexivity. Qed.

Lemma month_factor_ge_1 (rate : R) (j : nat) :
  0 <= rate -> 1 <= 1 + rate * 0.96 ^ j.
Proof. exact (factor_ge_1 rate j). Qed.

Lemma month_factor_le (r1 r2 : R) (j : nat) :
  r1 <= r2 -> 1 + r1 * 0.96 ^ j <= 1 + r2 * 0.96 ^ j.
Proof. exact (factor_le r1 r2 j). Qed.

Lemma compounded_ge_1 (rate : R) (k : nat) :
  0 <= rate -> 1 <= compounded rate k.
Proof.
  intros Hr. induction k as [| k IH].
  - simpl. lra.
  - rewrite compounded_S.
    assert (Hf := month_factor_ge_1 rate k Hr). nra.
Qed.

Lemma compounded_mono_months (rate : R) (i j : nat) :
  0 <= rate -> (i <= j)%nat -> compounded rate i <= compounded rate j.
Proof.
  intros Hr Hij. induction Hij as [| j Hij IH].
  - lra.
  - rewrite compounded_S.
    assert (Hf := month_factor_ge_1 rate j Hr).
    assert (H1 := compounded_ge_1 rate j Hr). nra.
Qed.

Lemma compounded_le (r1 r2 : R) (k : nat) :
  0 <= r1 <= r2 -> compounded r1 k <= compounded r2 k.
Proof.
  intros [H1 H12]. induction k as [| k IH].
  - simpl. lra.
  - rewrite !compounded_S.
    assert (Hc := compounded_ge_1 r1 k H1).
    assert (Hf := month_factor_ge_1 r1 k H1).
    apply Rmult_le_compat; [lra | lra | exact IH | now apply month_factor_le].
Qed.

Lemma compounded_lt (r1 r2 : R) (k : nat) :
  0 <= r1 < r2 -> compounded r1 (S k) < compounded r2 (S k).
Proof.
  intros [H1 H12]. induction k as [| k IH].
  - simpl. lra.
  - rewrite (compounded_S r1 (S k)), (compounded_S r2 (S k)).
    assert (Hf := month_factor_ge_1 r1 (S k) H1).
    assert (Hff := month_factor_le r1 r2 (S k) (Rlt_le _ _ H12)).
    assert (Hc := compounded_ge_1 r1 (S k) H1).
    apply Rlt_le_trans
      with (compounded r2 (S k) * (1 + r1 * 0.96 ^ S k)).
    + apply Rmult_lt_compat_r; lra.
    + apply Rmult_le_compat_l; lra.
Qed.

(** The comparison of two ratios of products, cross-multiplied: it holds
    month by month as soon as the sums and the products of the rates are in
    the right order. *)
Lemma compounded_cross (p1 t1 p2 t2 : R) (k : nat) :
  0 <= p1 -> 0 <= t1 -> 0 <= p2 -> 0 <= t2 ->
  p1 + t2 <= p2 + t1 -> p1 * t2 <= p2 * t1 ->
  compounded p1 k * compounded t2 k <= compounded p2 k * compounded t1 k.
Proof.
  intros Hp1 Ht1 Hp2 Ht2 Hsum Hprod. induction k as [| k IH].
  - simpl. lra.
  - rewrite !compounded_S.
    assert (Hd := decay_pow_range k).
    set (d := 0.96 ^ k) in *.
    assert (Hf : (1 + p1 * d) * (1 + t2 * d) <= (1 + p2 * d) * (1 + t1 * d)).
    { assert (Hd2 : 0 <= d * d) by nra.
      assert (Hs : (p1 + t2) * d <= (p2 + t1) * d)
        by (apply Rmult_le_compat_r; lra).
      assert (Hq : (p1 * t2) * (d * d) <= (p2 * t1) * (d * d))
        by (apply Rmult_le_compat_r; lra).
      lra. }
    assert (Ha := compounded_ge_1 p1 k Hp1).
    assert (Hb := compounded_ge_1 t2 k Ht2).
    assert (Hfa : 1 <= 1 + p1 * d) by (apply month_factor_ge_1; lra).
    assert (Hfb : 1 <= 1 + t2 * d) by (apply month_factor_ge_1; lra).
    replace (compounded p1 k * (1 + p1 * d) * (compounded t2 k * (1 + t2 * d)))
      with ((compounded p1 k * compounded t2 k)
            * ((1 + p1 * d) * (1 + t2 * d))) by ring.
    replace (compounded p2 k * (1 + p2 * d) * (compounded t1 k * (1 + t1 * d)))
      with ((compounded p2 k * compounded t1 k)
            * ((1 + p2 * d) * (1 + t1 * d))) by ring.
    apply Rmult_le_compat; [nra | nra | exact IH | exact Hf].
Qed.

(** A ratio of products is ordered as the cross-multiplication says. *)
Lemma ratio_le_of_cross (a b c d : R) :
  0 < b -> 0 < d -> a * d <= c * b -> a / b <= c / d.
Proof.
  intros Hb Hd Hcross.
  apply Rmult_le_reg_r with (b * d); [nra |].
  replace (a / b * (b * d)) with (a * d) by (field; lra).
  replace (c / d * (b * d)) with (c * b) by (field; lra).
  exact Hcross.
Qed.

(** The recorded point and the multiplier in terms of the products. *)
Lemma recorded_compounded (pMonthly tMonthly : R) (i : nat) :
  recorded pMonthly tMonthly i =
  mkPoint (Z.of_nat i) (round2 (compounded pMonthly i))
          (round2 (compounded tMonthly i)).
Proof.
  destruct i as [| i].
  - cbn [recorded compounded Z.of_nat]. now rewrite round2_1.
  - cbn [recorded]. now rewrite pIdx_compounded, tIdx_compounded.
Qed.

Lemma multiplier_compounded (cm roas netTermsDays : R) :
  multiplier (simulate cm roas netTermsDays) =
  compounded (portlessMonthly cm roas netTermsDays) 12
  / compounded (traditionalMonthly cm roas) 12.
Proof.
  unfold simulate, loop. cbn [multiplier].
  now rewrite pIdx_compounded, tIdx_compounded.
Qed.

Lemma point_at_compounded (cm roas netTermsDays : R) (i : nat) :
  (i <= 12)%nat ->
  point_at (simulate cm roas netTermsDays) i =
  mkPoint (Z.of_nat i)
    (round2 (compounded (portlessMonthly cm roas netTermsDays) i))
    (round2 (compounded (traditionalMonthly cm roas) i)).
Proof.
  intros Hi. rewrite simulate_point_at by exact Hi.
  apply recorded_compounded.
Qed.

(** ** The series and the multiplier *)

(** X10.  Rounding does not add up over the months: the index recorded
    for month [m] is less than one hundredth away from the full-precision
    product of the factors of the months up to [m]. *)
Theorem recorded_error_does_not_accumulate
  (cm roas netTermsDays : R) (m : nat) :
  (m <= 12)%nat ->
  let r := simulate cm roas netTermsDays in
  let fast := compounded (portlessMonthly cm roas netTermsDays) m in
  let trad := compounded (traditionalMonthly cm roas) m in
  fast - 0.01 < portless (point_at r m) < fast + 0.01
  /\ trad - 0.01 < traditional (point_at r m) < trad + 0.01.
Proof.
  intros Hm r fast trad. unfold r.
  rewrite point_at_compounded by exact Hm. cbn [portless traditional].
  assert (Hf := round2_within_half_cent_aux fast).
  assert (Ht := round2_within_half_cent_aux trad).
  fold fast trad. lra.
Qed.

Lemma recorded_error_does_not_accumulate_witness :
  let r := simulate 0.5 3 45 in
  let fast := compounded (portlessMonthly 0.5 3 45) 7 in
  let trad := compounded (traditionalMonthly 0.5 3) 7 in
  fast - 0.01 < portless (point_at r 7) < fast + 0.01
  /\ trad - 0.01 < traditional (point_at r 7) < trad + 0.01.
Proof.
  apply (recorded_error_does_not_accumulate 0.5 3 45 7). lia.
Defined.

(** X11.  When the fast cycle is not longer than the traditional one, the
    fast index recorded for a month is never below the traditional index
    of that month, and neither is below the starting value 1. *)
Theorem fast_never_behind (cm roas netTermsDays : R) (i : nat) :
  portlessCycle netTermsDays <= TRADITIONAL_CYCLE -> (i <= 12)%nat ->
  let r := simulate cm roas netTermsDays in
  1 <= traditional (point_at r i) <= portless (point_at r i).
Proof.
  intros Hc Hi r. unfold r.
  rewrite point_at_compounded by exact Hi. cbn [portless traditional].
  assert (Ht := traditionalMonthly_nonneg cm roas).
  assert (Hpt := monthly_rates_ordered cm roas netTermsDays Hc).
  split.
  - rewrite <- round2_1 at 1. apply round2_le.
    now apply compounded_ge_1.
  - apply round2_le. apply compounded_le. now split.
Qed.

Lemma fast_never_behind_witness :
  let r := simulate 0.5 3 45 in
  1 <= traditional (point_at r 5) <= portless (point_at r 5).
Proof.
  apply (fast_never_behind 0.5 3 45 5); [| lia].
  unfold portlessCycle, TRADITIONAL_CYCLE, Math.max.
  apply Rmax_lub; lra.
Defined.

(** X12.  Longer supplier terms never lower the outcome of the fast
    model: with the margin and the ROAS fixed, the multiplier and the fast
    index of every month do not decrease when [netTermsDays] grows. *)
Theorem longer_terms_never_hurt (cm roas terms1 terms2 : R) :
  terms1 <= terms2 ->
  let r1 := simulate cm roas terms1 in
  let r2 := simulate cm roas terms2 in
  multiplier r1 <= multiplier r2
  /\ (forall i : nat, (i <= 12)%nat ->
        portless (point_at r1 i) <= portless (point_at r2 i)).
Proof.
  intros Hterms r1 r2. unfold r1, r2.
  assert (Hg := growthPerCycle_bounds cm roas).
  assert (Hc1 := portlessCycle_floor terms1).
  assert (Hc2 := portlessCycle_floor terms2).
  assert (Hc : portlessCycle terms2 <= portlessCycle terms1).
  { unfold portlessCycle, Math.max. apply Rle_max_compat_l. lra. }
  assert (Hp1 := portlessMonthly_nonneg cm roas terms1).
  assert (Ht := traditionalMonthly_nonneg cm roas).
  assert (Hp : portlessMonthly cm roas terms1 <= portlessMonthly cm roas terms2).
  { unfold portlessMonthly, Rdiv.
    apply Rmult_le_compat_l; [lra |].
    apply Rinv_le_contravar; lra. }
  split.
  - rewrite !multiplier_compounded.
    assert (Hpos := compounded_ge_1 (traditionalMonthly cm roas) 12 Ht).
    apply rate_le_compat; [lra |].
    apply compounded_le. now split.
  - intros i Hi. rewrite !point_at_compounded by exact Hi.
    cbn [portless]. apply round2_le, compounded_le. now split.
Qed.

Lemma longer_terms_never_hurt_witness :
  let r1 := simulate 0.5 3 30 in
  let r2 := simulate 0.5 3 60 in
  multiplier r1 <= multiplier r2
  /\ (forall i : nat, (i <= 12)%nat ->
        portless (point_at r1 i) <= portless (point_at r2 i)).
Proof.
  apply (longer_terms_never_hurt 0.5 3 30 60). lra.
Defined.



(** A positive excess return and a strictly shorter fast cycle put the
    multiplier above 1. *)
Lemma multiplier_above_1 (cm roas netTermsDays : R) :
  portlessCycle netTermsDays < TRADITIONAL_CYCLE ->
  0 < cm * (roas - 1) ->
  1 < multiplier (simulate cm roas netTermsDays).
Proof.
  intros Hc He.
  assert (Hg := growthPerCycle_pos cm roas He).
  assert (Hfl := portlessCycle_floor netTermsDays).
  assert (Ht := traditionalMonthly_nonneg cm roas).
  assert (Hlt : traditionalMonthly cm roas
                < portlessMonthly cm roas netTermsDays).
  { unfold traditionalMonthly, portlessMonthly, Rdiv.
    apply Rmult_lt_compat_l; [exact Hg |].
    apply Rinv_lt_contravar; [| exact Hc].
    unfold TRADITIONAL_CYCLE. nra. }
  rewrite multiplier_compounded.
  assert (H1 := compounded_ge_1 _ 12 Ht).
  assert (Hs := compounded_lt _ _ 11 (conj Ht Hlt)).
  apply Rmult_lt_reg_r with (compounded (traditionalMonthly cm roas) 12);
    [lra |].
  unfold Rdiv. rewrite Rmult_assoc, Rinv_l by lra. lra.
Qed.

(** The largest products the rates allow. *)
Lemma compounded_traditional_max : compounded 0.1 12 < 2.54.
Proof. cbn [compounded]. lra. Qed.

Lemma compounded_portless_max : compounded (0.35 / 0.75) 12 < 45.88.
Proof. cbn [compounded]. lra. Qed.

Lemma round2_le_grid (x : R) (z : Z) : x <= IZR z / 100 -> round2 x <= IZR z / 100.
Proof.
  intros Hx. rewrite <- (round2_fixes_grid z). now apply round2_le.
Qed.

(** X14.  Whatever the inputs, every traditional index of the series lies
    between 1 and 2.54, every fast index between 1 and 45.88, and the
    multiplier between 0.39 and 45.88: the division that gives it is never
    a division by 0. *)
Theorem outputs_bounded (cm roas netTermsDays : R) :
  let r := simulate cm roas netTermsDays in
  (forall i : nat, (i <= 12)%nat ->
      1 <= traditional (point_at r i) <= 2.54
      /\ 1 <= portless (point_at r i) <= 45.88)
  /\ 1 <= tIdx (state_after cm roas netTermsDays 12)
  /\ 0.39 < multiplier r < 45.88.
Proof.
  intros r. unfold r.
  destruct (rates_in_range_aux cm roas netTermsDays) as [_ [[Ht0 Ht1] [Hp0 Hp1]]].
  set (pm := portlessMonthly cm roas netTermsDays) in *.
  set (tm := traditionalMonthly cm roas) in *.
  assert (HT : forall i, (i <= 12)%nat -> 1 <= compounded tm i < 2.54).
  { intros i Hi. split; [now apply compounded_ge_1 |].
    apply Rle_lt_trans with (compounded tm 12);
      [now apply compounded_mono_months |].
    apply Rle_lt_trans with (compounded 0.1 12);
      [apply compounded_le; now split | apply compounded_traditional_max]. }
  assert (HP : forall i, (i <= 12)%nat -> 1 <= compounded pm i < 45.88).
  { intros i Hi. split; [now apply compounded_ge_1 |].
    apply Rle_lt_trans with (compounded pm 12);
      [now apply compounded_mono_months |].
    apply Rle_lt_trans with (compounded (0.35 / 0.75) 12);
      [apply compounded_le; now split | apply compounded_portless_max]. }
  split; [| split].
  - intros i Hi. rewrite point_at_compounded by exact Hi.
    cbn [portless traditional]. fold pm tm.
    destruct (HT i Hi) as [HT1 HT2]. destruct (HP i Hi) as [HP1 HP2].
    repeat split.
    + rewrite <- round2_1 at 1. now apply round2_le.
    + replace 2.54 with (IZR 254 / 100) by lra. apply round2_le_grid. lra.
    + rewrite <- round2_1 at 1. now apply round2_le.
    + replace 45.88 with (IZR 4588 / 100) by lra. apply round2_le_grid. lra.
  - unfold state_after. fold pm tm. rewrite tIdx_compounded.
    apply (HT 12%nat). lia.
  - rewrite multiplier_compounded. fold pm tm.
    destruct (HT 12%nat ltac:(lia)) as [HT1 HT2].
    destruct (HP 12%nat ltac:(lia)) as [HP1 HP2].
    set (P := compounded pm 12) in *. set (T := compounded tm 12) in *.
    split.
    + apply Rmult_lt_reg_r with T; [lra |].
      unfold Rdiv. rewrite Rmult_assoc, Rinv_l by lra. nra.
    + apply Rmult_lt_reg_r with T; [lra |].
      unfold Rdiv. rewrite Rmult_assoc, Rinv_l by lra. nra.
Qed.

(** ** The inputs of the [App] component *)

Lemma round2_le_below_half (x : R) (z : Z) :
  x * 100 < IZR z + / 2 -> round2 x <= IZR z / 100.
Proof.
  intros Hx. unfold round2, Math.round.
  assert (Hb := Zfloor_bound (x * 100 + / 2)).
  assert (Hz : (Zfloor (x * 100 + / 2) < z + 1)%Z).
  { apply lt_IZR. rewrite plus_IZR. lra. }
  assert (Hle : IZR (Zfloor (x * 100 + / 2)) <= IZR z) by (apply IZR_le; lia).
  lra.
Qed.

Lemma traditionalMonthly_B : traditionalMonthly 0.80 6.0 = 0.1.
Proof.
  unfold traditionalMonthly, TRADITIONAL_CYCLE.
  rewrite growthPerCycle_scenario_B. lra.
Qed.

Lemma control_terms_range (cm roas netTerms : R) :
  control_values cm roas netTerms -> 30 <= netTerms <= 90.
Proof.
  intros [_ [_ Hin]]. cbn [In] in Hin.
  destruct Hin as [<- | [<- | [<- | [<- | []]]]]; lra.
Qed.

(** X16.  For every input the sliders and the terms buttons of [App] can
    produce, the excess return lies in [0.1, 4], the growth of a cycle is
    positive, the fast cycle lies in [0.76, 1] (the floor 0.75 is never
    reached), the multiplier is above 1 and at most the multiplier of the
    top setting [simulate(0.80, 6.0, 90)], which is below 17.33, and no
    fast index of the series exceeds 43.94. *)
Theorem controls_outcome (cm roas netTerms : R) :
  control_values cm roas netTerms ->
  let r := simulate cm roas netTerms in
  0.1 <= cm * (roas - 1) <= 4
  /\ 0 < growthPerCycle cm roas
  /\ 0.76 <= portlessCycle netTerms <= 1
  /\ 1 < multiplier r
  /\ multiplier r <= multiplier (simulate 0.80 6.0 90)
  /\ multiplier (simulate 0.80 6.0 90) < 17.33
  /\ (forall i : nat, (i <= 12)%nat -> portless (point_at r i) <= 43.94).
Proof.
  intros Hctl r. unfold r.
  assert (Hn := control_terms_range _ _ _ Hctl).
  destruct Hctl as [Hcm [Hroas _]].
  assert (He : 0.1 <= cm * (roas - 1) <= 4) by nra.
  assert (Hc : 0.76 <= portlessCycle netTerms <= 1).
  { unfold portlessCycle, Math.max. rewrite Rmax_right by lra. lra. }
  assert (Hg0 : 0 < growthPerCycle cm roas)
    by (apply growthPerCycle_pos; lra).
  assert (Hg := growthPerCycle_bounds cm roas).
  assert (Hp0 := portlessMonthly_nonneg cm roas netTerms).
  assert (Ht0 := traditionalMonthly_nonneg cm roas).
  assert (Hinv : / portlessCycle netTerms <= / 0.76)
    by (apply Rinv_le_contravar; lra).
  assert (Hinv1 : 1 <= / portlessCycle netTerms).
  { rewrite <- Rinv_1. apply Rinv_le_contravar; lra. }
  assert (Hp : portlessMonthly cm roas netTerms <= 0.35 / 0.76).
  { unfold portlessMonthly, Rdiv. apply Rmult_le_compat; lra. }
  assert (HB : multiplier (simulate 0.80 6.0 90)
               = compounded (0.35 / 0.76) 12 / compounded 0.1 12).
  { now rewrite multiplier_compounded, portlessMonthly_B_90,
      traditionalMonthly_B. }
  split; [exact He | split; [exact Hg0 | split; [exact Hc |]]].
  split; [| split; [| split]].
  - apply multiplier_above_1; [unfold TRADITIONAL_CYCLE |]; lra.
  - rewrite HB, multiplier_compounded.
    apply ratio_le_of_cross.
    + assert (H := compounded_ge_1 _ 12 Ht0). lra.
    + assert (H := compounded_ge_1 0.1 12). lra.
    + apply compounded_cross; try lra.
      * unfold portlessMonthly, traditionalMonthly, TRADITIONAL_CYCLE, Rdiv.
        set (g := growthPerCycle cm roas) in *.
        set (a := / portlessCycle netTerms) in *.
        assert (H1 : g * (a - / 3.5) <= 0.35 * (a - / 3.5))
          by (apply Rmult_le_compat_r; lra).
        lra.
      * unfold portlessMonthly, traditionalMonthly, TRADITIONAL_CYCLE, Rdiv.
        set (g := growthPerCycle cm roas) in *.
        set (a := / portlessCycle netTerms) in *.
        assert (H1 : g * a <= g * / 0.76)
          by (apply Rmult_le_compat_l; lra).
        lra.
  - rewrite HB.
    assert (HT : 1 <= compounded 0.1 12) by (apply compounded_ge_1; lra).
    apply Rmult_lt_reg_r with (compounded 0.1 12); [lra |].
    unfold Rdiv. rewrite Rmult_assoc, Rinv_l by lra.
    cbn [compounded]. lra.
  - intros i Hi. rewrite point_at_compounded by exact Hi. cbn [portless].
    replace 43.94 with (IZR 4394 / 100) by lra.
    apply round2_le_below_half.
    assert (Hmono := compounded_mono_months _ i 12 Hp0 Hi).
    assert (Hle := compounded_le _ _ 12 (conj Hp0 Hp)).
    assert (Hmax : compounded (0.35 / 0.76) 12 < 43.945)
      by (cbn [compounded]; lra).
    lra.
Qed.

Lemma controls_outcome_witness :
  let r := simulate 0.50 3.0 45 in
  0.1 <= 0.50 * (3.0 - 1) <= 4
  /\ 0 < growthPerCycle 0.50 3.0
  /\ 0.76 <= portlessCycle 45 <= 1
  /\ 1 < multiplier r
  /\ multiplier r <= multiplier (simulate 0.80 6.0 90)
  /\ multiplier (simulate 0.80 6.0 90) < 17.33
  /\ (forall i : nat, (i <= 12)%nat -> portless (point_at r i) <= 43.94).
Proof.
  apply (controls_outcome 0.50 3.0 45).
  unfold control_values. cbn [In].
  split; [lra | split; [lra | right; left; reflexivity]].
Defined.

(** ** Decay *)

Lemma accumulator_growth (rate : R) (k : nat) :
  0 <= rate ->
  compounded rate (S k) / compounded rate k = 1 + rate * 0.96 ^ k.
Proof.
  intros Hr. assert (H1 := compounded_ge_1 rate k Hr).
  rewrite compounded_S. field. lra.
Qed.

(** X17.  Growth slows down: for each model the growth of the accumulator
    from one month to the next, [index(m+1) / index(m)], is at least 1 and
    never larger than the growth of the month before. *)
Theorem growth_slows_down (cm roas netTermsDays : R) (k : nat) :
  (k + 2 <= 12)%nat ->
  let s := state_after cm roas netTermsDays in
  1 <= pIdx (s (k + 2)%nat) / pIdx (s (k + 1)%nat)
    <= pIdx (s (k + 1)%nat) / pIdx (s k)
  /\ 1 <= tIdx (s (k + 2)%nat) / tIdx (s (k + 1)%nat)
    <= tIdx (s (k + 1)%nat) / tIdx (s k).
Proof.
  intros _ s. unfold s, state_after.
  rewrite !pIdx_compounded, !tIdx_compounded.
  replace (k + 2)%nat with (S (S k)) by lia.
  replace (k + 1)%nat with (S k) by lia.
  assert (Hp := portlessMonthly_nonneg cm roas netTermsDays).
  assert (Ht := traditionalMonthly_nonneg cm roas).
  rewrite !accumulator_growth by assumption.
  assert (Hd := decay_pow_range k).
  assert (Hd' : 0.96 ^ S k = 0.96 * 0.96 ^ k) by reflexivity.
  rewrite Hd'.
  split; split; nra.
Qed.

Lemma growth_slows_down_witness :
  let s := state_after 0.5 3 45 in
  1 <= pIdx (s (3 + 2)%nat) / pIdx (s (3 + 1)%nat)
    <= pIdx (s (3 + 1)%nat) / pIdx (s 3%nat)
  /\ 1 <= tIdx (s (3 + 2)%nat) / tIdx (s (3 + 1)%nat)
    <= tIdx (s (3 + 1)%nat) / tIdx (s 3%nat).
Proof.
  apply (growth_slows_down 0.5 3 45 3). lia.
Defined.
